(** * docs/hooks.py: the MkDocs pre-build hook of treefmt

    The hook regenerates the documentation snippet [snippets/usage.txt]
    from the output of [treefmt --help]:

<<
    def on_pre_build( **kwargs ):
        with Path("./snippets/usage.txt").open("w") as f:
            subprocess.run(
                ["treefmt", "--help"],
                stdout=f,
                check=True,
            )
>>

    The hook is pure glue between the file system and the process table,
    so the embedding is a state-and-exception monad over an explicit
    [world]: directories, regular files, the descriptor table of the
    Python process, the operating system's answer to an [exec] request,
    the children launched so far and the two inherited output streams.
    The library calls of the source ([pathlib.Path], [Path.open], the
    [with] statement, [subprocess.run]) are embedded one by one and the
    hook is written on top of them as it is in the source. *)

From stdpp Require Import gmap strings list.
From Stdlib Require Import ZArith Ascii.

Local Open Scope string_scope.
Local Open Scope list_scope.

(** ** Bytes and paths *)

Abbreviation byte := Byte.byte.
Abbreviation bytes := (list Byte.byte).

(** A relative [pathlib.Path] is the list of its parts. *)
Abbreviation path := (list string).

Module Pathlib.

(** Cut a string at every occurrence of [sep]; [acc] holds the part
    being read, in reverse. *)
Fixpoint split_go (sep : ascii) (acc : list ascii) (s : string) : list string :=
  match s with
  | EmptyString => [String.string_of_list_ascii (rev acc)]
  | String c s' =>
      if Ascii.eqb c sep
      then String.string_of_list_ascii (rev acc) :: split_go sep [] s'
      else split_go sep (c :: acc) s'
  end.

Definition split (sep : ascii) (s : string) : list string := split_go sep [] s.

(** [PurePath] parsing of a relative path: empty parts (doubled or
    trailing slashes) and ["."] parts are dropped, [".."] is kept. *)
Definition keep_part (part : string) : bool :=
  negb (String.eqb part "") && negb (String.eqb part ".").

Definition Path (s : string) : path := List.filter keep_part (split "/"%char s).

(** [str(p)]: the parts joined by a slash, ["."] for the empty path. *)
Fixpoint join (ps : list string) : string :=
  match ps with
  | [] => ""
  | [p] => p
  | p :: ps' => p ++ "/" ++ join ps'
  end.

Definition str (p : path) : string :=
  match p with [] => "." | _ => join p end.

(** [p.parent]. *)
Definition parent (p : path) : path := removelast p.

End Pathlib.

(** ** The world the hook runs in *)

Inductive errno :=
  | ENOENT | EACCES | EISDIR | ENOTDIR | ELOOP
  | ENOEXEC | ENOMEM | EAGAIN | EMFILE | ENFILE.

(** A regular file: its contents and whether this process may write it. *)
Record inode := Inode { i_data : bytes; i_writable : bool }.

(** An open file description: the place of the file it designates, the
    position of the next write, the append flag, and the bytes written
    through the Python file object that still sit in its buffer. *)
Record open_file := OpenFile {
  of_path : path;
  of_offset : nat;
  of_append : bool;
  of_pending : bytes
}.

(** What a child does while it runs: a sequence of writes, each to its
    standard output or to its standard error, and then an exit status
    (negative when a signal ended it, as [Popen.returncode] reports).
    The tool is opaque: a child is observed through its two output
    streams and its exit status, and it ends. *)
Inductive chunk := Out (bs : bytes) | Err (bs : bytes).

Record program := Program { prog_writes : list chunk; prog_status : Z }.

(** The answer of the operating system to a request to run [argv].
    [SpawnFails]: no process could be created (the pipe or the fork
    failed: [EMFILE], [EAGAIN], [ENOMEM], ...). [ExecFails]: a process
    was created and its [exec] failed, the lookup on the search path
    included ([ENOENT], [EACCES], [ENOEXEC], ...). [ExecRuns]: the
    executable runs. *)
Inductive exec_result :=
  | SpawnFails (e : errno)
  | ExecFails (e : errno)
  | ExecRuns (p : program).

(** The state the hook can observe or change. Paths are relative to the
    working directory, which is the empty path. A path is a name;
    [namei] is the walk the operating system makes from a name to the
    place of the file it designates, following symbolic links on the
    way, or the [errno] the walk ends with ([ELOOP], [ENOENT], ...).
    [dirs] and [files] are keyed by places: two names of one file, a
    link and its target or two hard links, lead to one key.
    [created_writable] tells whether a file this process creates is one
    it can open for writing later: the mode of a created file is
    [0666 & ~umask], so a mask that takes the owner's write bit away
    makes it [false]. The two inherited streams are those of the host
    (a terminal, a log) and are kept apart from the regular files. *)
Record world := World {
  dirs : gmap path bool;            (* directories; [true]: entries may be added *)
  files : gmap path inode;          (* regular files *)
  fds : gmap nat open_file;         (* descriptor table of this process *)
  os_exec : list string -> exec_result;
  children : list (list string);    (* argv of every child launched, oldest first *)
  stdout_sink : bytes;              (* what reached the inherited stdout *)
  stderr_sink : bytes;              (* what reached the inherited stderr *)
  namei : path -> errno + path;
  created_writable : bool
}.

Definition set_files (f : gmap path inode) (w : world) : world :=
  World (dirs w) f (fds w) (os_exec w) (children w) (stdout_sink w) (stderr_sink w)
    (namei w) (created_writable w).
Definition set_fds (t : gmap nat open_file) (w : world) : world :=
  World (dirs w) (files w) t (os_exec w) (children w) (stdout_sink w) (stderr_sink w)
    (namei w) (created_writable w).
Definition set_os_exec (x : list string -> exec_result) (w : world) : world :=
  World (dirs w) (files w) (fds w) x (children w) (stdout_sink w) (stderr_sink w)
    (namei w) (created_writable w).
Definition set_children (c : list (list string)) (w : world) : world :=
  World (dirs w) (files w) (fds w) (os_exec w) c (stdout_sink w) (stderr_sink w)
    (namei w) (created_writable w).
Definition set_stdout_sink (s : bytes) (w : world) : world :=
  World (dirs w) (files w) (fds w) (os_exec w) (children w) s (stderr_sink w)
    (namei w) (created_writable w).
Definition set_stderr_sink (s : bytes) (w : world) : world :=
  World (dirs w) (files w) (fds w) (os_exec w) (children w) (stdout_sink w) s
    (namei w) (created_writable w).

(** The contents of the regular file the name [p] leads to, if there is
    one. *)
Definition contents (w : world) (p : path) : option bytes :=
  match namei w p with
  | inl _ => None
  | inr q => i_data <$> files w !! q
  end.

(** ** Python exceptions and the monad of Python code *)

(** [OSError_unnamed] is an [OSError] whose [filename] is [None]. *)
Inductive exn :=
  | OSError (e : errno) (filename : string)
  | OSError_unnamed (e : errno)
  | CalledProcessError (returncode : Z) (cmd : list string)
  | IndexError.

(** [FileNotFoundError] and [PermissionError] are the subclasses of
    [OSError] that Python picks from the [errno]. *)
Definition FileNotFoundError (filename : string) : exn := OSError ENOENT filename.
Definition PermissionError (filename : string) : exn := OSError EACCES filename.

Inductive outcome (A : Type) :=
  | Return (a : A)
  | Raise (e : exn).
Arguments Return {A} a.
Arguments Raise {A} e.

Definition M (A : Type) : Type := world -> outcome A * world.

#[export] Instance M_ret : MRet M := fun A a w => (Return a, w).
#[export] Instance M_bind : MBind M := fun A B k m w =>
  match m w with
  | (Return a, w') => k a w'
  | (Raise e, w') => (Raise e, w')
  end.

Definition raise {A} (e : exn) : M A := fun w => (Raise e, w).
Definition modify (f : world -> world) : M unit := fun w => (Return tt, f w).

(** The final world and the outcome of running [m] from [w]. *)
Definition exec {A} (m : M A) (w : world) : world := snd (m w).
Definition result {A} (m : M A) (w : world) : outcome A := fst (m w).

(** ** Operating-system primitives *)

(** [bs] written at position [off] of [data]: the bytes before [off] stay
    (a gap past the end reads as zeros), [bs] follows, and so does
    whatever of [data] lies past the written range. *)
Definition pwrite (off : nat) (bs data : bytes) : bytes :=
  take off data ++ replicate (off - length data) Byte.x00 ++ bs
    ++ drop (off + length bs) data.

(** [write(fd, bs)]: the bytes go to the file the descriptor designates,
    at the end of the file for an append descriptor and at the
    descriptor's position otherwise, and the position moves past them.
    The position belongs to the open file description, which a child
    that inherits the descriptor shares. A write of no bytes, or to a
    descriptor or file that is gone, changes nothing. *)
Definition fd_write (fd : nat) (bs : bytes) (w : world) : world :=
  match bs, fds w !! fd with
  | [], _ | _, None => w
  | _, Some o =>
      match files w !! of_path o with
      | None => w
      | Some ino =>
          let off := if of_append o then length (i_data ino) else of_offset o in
          set_fds
            (<[fd := OpenFile (of_path o) (off + length bs) (of_append o) (of_pending o)]> (fds w))
            (set_files
               (<[of_path o := Inode (pwrite off bs (i_data ino)) (i_writable ino)]> (files w))
               w)
      end
  end.

(** The two modes of [open] that write: ["w"] creates or truncates,
    ["a"] creates or appends. *)
Inductive mode := Mode_w | Mode_a.

(** The file a writing [open] of the name [p] would open, with its
    place: the existing one when it is writable, a new empty one when
    the parent directory takes new entries, and otherwise the [errno]
    of the refusal. A new file gets the mode the mask leaves it. *)
Definition open_target (p : path) (w : world) : errno + path * inode :=
  let refused (e : errno) : errno + path * inode := inl e in
  let granted (q : path) (ino : inode) : errno + path * inode := inr (q, ino) in
  match namei w p with
  | inl e => refused e
  | inr q =>
      if decide (is_Some (dirs w !! q)) then refused EISDIR
      else
        match (dirs w !! Pathlib.parent q : option bool) with
        | None =>
            if decide (is_Some (files w !! Pathlib.parent q))
            then refused ENOTDIR else refused ENOENT
        | Some may_add =>
            match (files w !! q : option inode) with
            | Some ino => if i_writable ino then granted q ino else refused EACCES
            | None =>
                if may_add then granted q (Inode [] (created_writable w))
                else refused EACCES
            end
        end
  end.

(** [open(p, O_WRONLY | O_CREAT | O_TRUNC, 0666)] for [Mode_w] and
    [open(p, O_WRONLY | O_CREAT | O_APPEND, 0666)] for [Mode_a]. A
    refused open leaves the world as it was; a granted one takes a
    descriptor that is not in use, and the descriptor can be written
    whatever the mode of a file it has just created. *)
Definition os_open (p : path) (m : mode) (w : world) : errno + nat * world :=
  match open_target p w with
  | inl e => inl e
  | inr (q, ino) =>
      let fd := fresh (dom (fds w)) in
      let data := match m with Mode_w => [] | Mode_a => i_data ino end in
      let app := match m with Mode_w => false | Mode_a => true end in
      inr (fd,
           set_fds (<[fd := OpenFile q 0 app []]> (fds w))
             (set_files (<[q := Inode data (i_writable ino)]> (files w)) w))
  end.

(** ** The library calls of the hook *)

(** [Path.open(mode)]: the file object is represented by its descriptor;
    its buffer is the [of_pending] field of the descriptor's entry. *)
Definition Path_open (p : path) (m : mode) : M nat := fun w =>
  match os_open p m w with
  | inl e => (Raise (OSError e (Pathlib.str p)), w)
  | inr (fd, w') => (Return fd, w')
  end.

(** [f.close()]: what is buffered is written out, then the descriptor
    is released. Closing a file that is closed already does nothing. *)
Definition close (f : nat) : M unit :=
  modify (fun w =>
    match fds w !! f with
    | None => w
    | Some o => let w' := fd_write f (of_pending o) w in set_fds (delete f (fds w')) w'
    end).

(** [with acquire as f: body]: the file is closed when the body is left,
    whether it returned or raised, and the body's outcome stands
    (the [__exit__] of a file object returns [None]). *)
Definition with_ {A} (acquire : M nat) (body : nat -> M A) : M A := fun w =>
  match acquire w with
  | (Raise e, w1) => (Raise e, w1)
  | (Return f, w1) =>
      let '(r, w2) := body f w1 in
      match close f w2 with
      | (Raise e, w3) => (Raise e, w3)
      | (Return _, w3) => (r, w3)
      end
  end.

Module subprocess.

Record process := Process {
  p_args : list string;
  p_stdout : option nat;
  p_program : program
}.

Record CompletedProcess := Completed { cp_args : list string; cp_returncode : Z }.

(** [Popen(args, stdout=...)] with [stdin] and [stderr] left at their
    default [None]: the child inherits them. The program name is
    [args[0]]. When no process can be created the [OSError] of the
    operating system is raised as it is, without a file name. When the
    [exec] in the new process fails, the exception is the [OSError] of
    its [errno] with the program name as [filename]. In both cases
    there is no child that runs the program. *)
Definition Popen (args : list string) (stdout : option nat) : M process :=
  match args with
  | [] => raise IndexError
  | executable :: _ => fun w =>
      match os_exec w args with
      | SpawnFails e => (Raise (OSError_unnamed e), w)
      | ExecFails e => (Raise (OSError e executable), w)
      | ExecRuns p =>
          (Return (Process args stdout p), set_children (children w ++ [args]) w)
      end
  end.

(** One write of the child: standard output goes to the descriptor it
    was given, or to the inherited stream; standard error always goes
    to the inherited stream. *)
Definition child_write (stdout : option nat) (c : chunk) (w : world) : world :=
  match c with
  | Out bs =>
      match stdout with
      | Some fd => fd_write fd bs w
      | None => set_stdout_sink (stdout_sink w ++ bs) w
      end
  | Err bs => set_stderr_sink (stderr_sink w ++ bs) w
  end.

Definition run_child (stdout : option nat) (cs : list chunk) (w : world) : world :=
  foldl (fun w c => child_write stdout c w) w cs.

(** [process.wait()]: the caller blocks until the child has done all
    its writes and exited; the result is the exit status. *)
Definition wait (p : process) : M Z := fun w =>
  (Return (prog_status (p_program p)),
   run_child (p_stdout p) (prog_writes (p_program p)) w).

(** [subprocess.run(args, stdout=..., check=...)]. *)
Definition run (args : list string) (stdout : option nat) (check : bool)
  : M CompletedProcess :=
  p ← Popen args stdout;
  retcode ← wait p;
  if check && negb (retcode =? 0)%Z
  then raise (CalledProcessError retcode args)
  else mret (Completed args retcode).

End subprocess.

(** ** The hook *)

(** The keyword arguments of the host are a dictionary from names to
    values of any kind. *)
Definition on_pre_build {V : Type} (kwargs : gmap string V) : M unit :=
  with_ (Path_open (Pathlib.Path "./snippets/usage.txt") Mode_w) (fun f =>
    _ ← subprocess.run ["treefmt"; "--help"] (Some f) true;
    mret tt).

(** The two constants of the hook. *)
Definition usage_txt : path := ["snippets"; "usage.txt"].
Definition treefmt_help : list string := ["treefmt"; "--help"].

(** The bytes a run of a program sends to each of its two streams. *)
Fixpoint stdout_bytes (cs : list chunk) : bytes :=
  match cs with
  | [] => []
  | Out bs :: cs' => bs ++ stdout_bytes cs'
  | Err _ :: cs' => stdout_bytes cs'
  end.

Fixpoint stderr_bytes (cs : list chunk) : bytes :=
  match cs with
  | [] => []
  | Out _ :: cs' => stderr_bytes cs'
  | Err bs :: cs' => bs ++ stderr_bytes cs'
  end.

(** ** Vocabulary of the statements *)

(** The [errno] with which a writing [open] of [p] is refused, [None]
    when it is granted. *)
Definition open_errno (p : path) (w : world) : option errno :=
  match open_target p w with inl e => Some e | inr _ => None end.

(** The outcome and the final world of the hook are stated with three
    definitions, for the three things that can happen: the open is
    refused; the open is granted and the launch fails; the open is
    granted and the tool runs. [after_open] is the world once the
    file at the place [q] holds [data] and its descriptor is closed again,
    [after_child] adds the child to the children and its standard-error
    bytes to the inherited stream, [check_status] is the outcome
    [check=True] gives. *)
Definition after_open (q : path) (ino : inode) (data : bytes) (w : world) : world :=
  set_files (<[q := Inode data (i_writable ino)]> (files w)) w.

Definition after_child (p : program) (w : world) : world :=
  set_stderr_sink (stderr_sink w ++ stderr_bytes (prog_writes p))
    (set_children (children w ++ [treefmt_help]) w).

Definition check_status (p : program) : outcome unit :=
  if (prog_status p =? 0)%Z then Return tt
  else Raise (CalledProcessError (prog_status p) treefmt_help).

(** ** Worlds to run the hook in *)

(** A host that passes its configuration, as MkDocs does. *)
Definition host_kwargs : gmap string string := {[ "config" := "mkdocs.yml" ]}.

(** The line the tool prints in the scenario of the specification,
    with its newline. *)
Definition usage_line : bytes :=
  String.list_byte_of_string "Usage: treefmt [OPTIONS]" ++ [Byte.x0a].

(** A search path on which only [treefmt --help] resolves, to [p]. *)
Definition installed (p : program) (argv : list string) : exec_result :=
  if decide (argv = treefmt_help) then ExecRuns p else ExecFails ENOENT.

Definition not_installed (argv : list string) : exec_result := ExecFails ENOENT.

(** The documentation directory: [snippets/] exists and is writable,
    nothing is open, and [fs] are the files present. There are no
    links, so that every name is its own place, and the mask leaves
    created files writable. *)
Definition docs_dir (fs : gmap path inode) (x : list string -> exec_result) : world :=
  World {[ [] := true; ["snippets"] := true ]} fs ∅ x [] [] [] inr true.

(** The same without the [snippets/] directory. *)
Definition no_snippets_dir (x : list string -> exec_result) : world :=
  World {[ [] := true ]} ∅ ∅ x [] [] [] inr true.

(** The documentation directory with [snippets/usage.txt] a symbolic
    link to [other.txt] one level up. *)
Definition link_to_other (p : path) : errno + path :=
  if decide (p = usage_txt) then inr ["other.txt"] else inr p.

Definition linked_docs_dir (fs : gmap path inode) (x : list string -> exec_result) : world :=
  World {[ [] := true; ["snippets"] := true ]} fs ∅ x [] [] [] link_to_other true.

(** The documentation directory under a mask that takes the write bit
    away from the files the process creates ([umask 0222]). *)
Definition masked_docs_dir (fs : gmap path inode) (x : list string -> exec_result) : world :=
  World {[ [] := true; ["snippets"] := true ]} fs ∅ x [] [] [] inr false.

(** A system that has run out of processes. *)
Definition no_more_processes (argv : list string) : exec_result := SpawnFails EAGAIN.

Definition help_ok : program := Program [Out usage_line] 0.

(** A tool that prints half a line, complains, and fails. *)
Definition help_fails : program :=
  Program [Out (String.list_byte_of_string "Usage: "); Err (String.list_byte_of_string "panic")] 2.

(** A tool that prints the usage line in two writes with a warning on
    standard error in between. *)
Definition help_noisy : program :=
  Program [Out (String.list_byte_of_string "Usage: treefmt ");
           Err (String.list_byte_of_string "warning: no config");
           Out (String.list_byte_of_string "[OPTIONS]" ++ [Byte.x0a])] 0.

(** A snippet left by an earlier run that this process may not write. *)
Definition stale_line : bytes := String.list_byte_of_string "Usage: treefmt-0.1".

Definition read_only_snippet : gmap path inode := {[ usage_txt := Inode stale_line false ]}.
Definition writable_snippet : gmap path inode := {[ usage_txt := Inode stale_line true ]}.

(** ** The host calling the hook again and again

    A host that rebuilds the documentation on every change calls the
    hook once per rebuild and carries on from the world the last call
    left, whether that call returned or raised. *)
Fixpoint rebuilds {V : Type} (kwargs : gmap string V) (n : nat) (w : world) : world :=
  match n with
  | O => w
  | S n' => rebuilds kwargs n' (exec (on_pre_build kwargs) w)
  end.

(** The bytes one call leaves in the destination once its open is
    granted: the standard output of the tool when it runs, nothing when
    the launch fails. *)
Definition written (w : world) : bytes :=
  match os_exec w treefmt_help with
  | ExecRuns p => stdout_bytes (prog_writes p)
  | _ => []
  end.

(** The children one call spawns from [w]. *)
Definition spawned (w : world) : list (list string) :=
  match open_errno usage_txt w, os_exec w treefmt_help with
  | None, ExecRuns _ => [treefmt_help]
  | _, _ => []
  end.

(** * Properties *)

(** ** The monad *)

Lemma bind_Raise {A B} (m : M A) (k : A -> M B) (w w' : world) (e : exn) :
  m w = (Raise e, w') -> (m ≫= k) w = (Raise e, w').
Proof. intros Hm. unfold mbind, M_bind. by rewrite Hm. Qed.

(** ** Paths *)

Lemma Path_usage_txt : Pathlib.Path "./snippets/usage.txt" = usage_txt.
Proof. reflexivity. Qed.

(** ** Writing through a descriptor *)

Lemma pwrite_at_end (bs data : bytes) : pwrite (length data) bs data = data ++ bs.
Proof.
  unfold pwrite.
  rewrite firstn_all, Nat.sub_diag, drop_ge by lia.
  simpl. by rewrite app_nil_r.
Qed.

(** A write through a descriptor that stands at the end of its file
    extends the file by the bytes written and leaves the descriptor at
    the new end. *)
Lemma fd_write_at_end (fd : nat) (p : path) (d bs pend : bytes) (wr : bool) (w : world) :
  fds w !! fd = Some (OpenFile p (length d) false pend) ->
  files w !! p = Some (Inode d wr) ->
  fd_write fd bs w =
    set_fds (<[fd := OpenFile p (length (d ++ bs)) false pend]> (fds w))
      (set_files (<[p := Inode (d ++ bs) wr]> (files w)) w).
Proof.
  intros Hfd Hp. unfold fd_write. destruct bs as [|b bs].
  - rewrite app_nil_r. destruct w; unfold set_fds, set_files; simpl in *.
    by rewrite !insert_id.
  - rewrite Hfd. simpl. rewrite Hp. simpl.
    by rewrite pwrite_at_end, length_app.
Qed.

Section child.
Import subprocess.

(** A child whose standard output is a descriptor at the end of its
    file appends its standard-output writes to that file, in order;
    its standard-error writes reach the inherited stream only. *)
Lemma run_child_redirected (fd : nat) (p : path) (pend : bytes) (wr : bool)
    (cs : list chunk) :
  forall (d : bytes) (w : world),
    fds w !! fd = Some (OpenFile p (length d) false pend) ->
    files w !! p = Some (Inode d wr) ->
    run_child (Some fd) cs w =
      set_stderr_sink (stderr_sink w ++ stderr_bytes cs)
        (set_fds (<[fd := OpenFile p (length (d ++ stdout_bytes cs)) false pend]> (fds w))
           (set_files (<[p := Inode (d ++ stdout_bytes cs) wr]> (files w)) w)).
Proof.
  induction cs as [|c cs IH]; intros d w Hfd Hp.
  - simpl. rewrite !app_nil_r.
    destruct w; unfold set_stderr_sink, set_fds, set_files; simpl in *.
    by rewrite !insert_id.
  - destruct c as [bs|bs]; simpl.
    + rewrite (fd_write_at_end fd p d bs pend wr w Hfd Hp).
      rewrite (IH (d ++ bs)); simpl.
      * rewrite !insert_insert_eq, <- !app_assoc. done.
      * by rewrite lookup_insert_eq.
      * by rewrite lookup_insert_eq.
    + rewrite (IH d); simpl; [|done..].
      by rewrite <- app_assoc.
Qed.
End child.

(** ** Opening and closing *)

Lemma os_open_refused (p : path) (m : mode) (w : world) (e : errno) :
  open_errno p w = Some e -> os_open p m w = inl e.
Proof.
  unfold open_errno, os_open. destruct (open_target p w) as [|[q ino]]; congruence.
Qed.

Lemma os_open_granted (p : path) (w : world) :
  open_errno p w = None ->
  exists q ino, open_target p w = inr (q, ino) /\
    os_open p Mode_w w =
      inr (fresh (dom (fds w)),
           set_fds (<[fresh (dom (fds w)) := OpenFile q 0 false []]> (fds w))
             (set_files (<[q := Inode [] (i_writable ino)]> (files w)) w)).
Proof.
  unfold open_errno, os_open. destruct (open_target p w) as [e|[q ino]]; [done|].
  intros _. by exists q, ino.
Qed.

(** The place of a granted open is where the name leads. *)
Lemma open_target_namei (p q : path) (w : world) (ino : inode) :
  open_target p w = inr (q, ino) -> namei w p = inr q.
Proof.
  unfold open_target. destruct (namei w p) as [e|q']; [done|].
  destruct (decide (is_Some (dirs w !! q'))); [done|].
  destruct (dirs w !! Pathlib.parent q') as [may_add|]; [|by destruct (decide _)].
  destruct (files w !! q') as [old|].
  - destruct (i_writable old); intros; by simplify_eq.
  - destruct may_add; intros; by simplify_eq.
Qed.

(** The two modes differ in what a granted open leaves in the file:
    ["w"] empties it, ["a"] keeps what was there. *)
Lemma os_open_w_truncates (p : path) (w w1 : world) (f : nat) :
  os_open p Mode_w w = inr (f, w1) -> contents w1 p = Some [].
Proof.
  unfold os_open, contents.
  destruct (open_target p w) as [e|[q ino]] eqn:Htarget; intros; simplify_eq.
  simpl. rewrite (open_target_namei _ _ _ _ Htarget). by rewrite lookup_insert_eq.
Qed.

Lemma os_open_a_keeps (p : path) (w w1 : world) (f : nat) (d : bytes) :
  contents w p = Some d -> os_open p Mode_a w = inr (f, w1) -> contents w1 p = Some d.
Proof.
  unfold os_open, contents. intros Hd.
  destruct (open_target p w) as [e|[q ino]] eqn:Htarget; intros; simplify_eq.
  pose proof (open_target_namei _ _ _ _ Htarget) as Hq.
  rewrite Hq in Hd. simpl. rewrite Hq, lookup_insert_eq. simpl.
  revert Htarget. unfold open_target. rewrite Hq.
  destruct (decide _); [done|].
  destruct (dirs w !! Pathlib.parent q); [|by destruct (decide _)].
  destruct (files w !! q) as [old|]; simplify_eq/=.
  destruct (i_writable old); intros; by simplify_eq.
Qed.

(** Whether an open is granted depends on the walk, the directories,
    the files and the mask only. *)
Lemma open_target_ext (p : path) (w w' : world) :
  namei w = namei w' -> dirs w = dirs w' -> files w = files w' ->
  created_writable w = created_writable w' ->
  open_target p w = open_target p w'.
Proof. intros Hn Hd Hf Hc. unfold open_target. by rewrite Hn, Hd, Hf, Hc. Qed.

(** A file that was opened and written can be opened again if it is
    writable, and not otherwise: a file created under a mask that takes
    the write bit away was written through the descriptor of the open
    that created it, and is closed to a later open. *)
Lemma open_target_rewritten (p q : path) (w w' : world) (ino : inode) (data : bytes) :
  open_target p w = inr (q, ino) ->
  namei w' = namei w ->
  dirs w' = dirs w ->
  files w' = <[q := Inode data (i_writable ino)]> (files w) ->
  open_target p w' =
    if i_writable ino then inr (q, Inode data true) else inl EACCES.
Proof.
  intros Hgranted Hn Hd Hf.
  pose proof (open_target_namei _ _ _ _ Hgranted) as Hq.
  revert Hgranted. unfold open_target. rewrite Hn, Hd, Hf, Hq, lookup_insert_eq.
  destruct (decide (is_Some (dirs w !! q))); [done|].
  destruct (dirs w !! Pathlib.parent q) as [may_add|]; [|by destruct (decide _)].
  intros _. by destruct (i_writable ino).
Qed.

Lemma fresh_fd_unused (w : world) : fds w !! fresh (dom (fds w)) = None.
Proof. apply not_elem_of_dom, is_fresh. Qed.

(** Closing a file whose buffer is empty releases the descriptor and
    touches nothing else. *)
Lemma close_unbuffered (f : nat) (o : open_file) (w : world) :
  fds w !! f = Some o -> of_pending o = [] ->
  close f w = (Return tt, set_fds (delete f (fds w)) w).
Proof.
  intros Hf Hpend. unfold close, modify. rewrite Hf, Hpend. done.
Qed.

(** ** The hook in one equation *)

Lemma on_pre_build_eq {V : Type} (kwargs : gmap string V) (w : world) :
  on_pre_build kwargs w =
    match open_target usage_txt w with
    | inl e => (Raise (OSError e "snippets/usage.txt"), w)
    | inr (q, ino) =>
        match os_exec w treefmt_help with
        | SpawnFails e => (Raise (OSError_unnamed e), after_open q ino [] w)
        | ExecFails e => (Raise (OSError e "treefmt"), after_open q ino [] w)
        | ExecRuns p =>
            (check_status p,
             after_child p (after_open q ino (stdout_bytes (prog_writes p)) w))
        end
    end.
Proof.
  unfold on_pre_build, with_, Path_open. rewrite Path_usage_txt.
  change ["treefmt"; "--help"] with treefmt_help.
  destruct (open_errno usage_txt w) as [e|] eqn:Hopen.
  - rewrite (os_open_refused _ _ _ _ Hopen).
    unfold open_errno in Hopen.
    destruct (open_target usage_txt w) as [|[q ino]]; by simplify_eq.
  - destruct (os_open_granted _ _ Hopen) as (q & ino & Htarget & ->).
    rewrite Htarget. set (fd := fresh (dom (fds w))).
    pose proof (fresh_fd_unused w) as Hfresh. fold fd in Hfresh.
    set (w1 := set_fds _ _).
    assert (Hfd1 : fds w1 !! fd = Some (OpenFile q (length (@nil byte)) false []))
      by (subst w1; simpl; by rewrite lookup_insert_eq).
    assert (Hp1 : files w1 !! q = Some (Inode [] (i_writable ino)))
      by (subst w1; simpl; by rewrite lookup_insert_eq).
    unfold subprocess.run.
    destruct (os_exec w treefmt_help) as [e|e|p] eqn:Hexec.
    1,2: (erewrite bind_Raise; last first;
      [ eapply bind_Raise; unfold subprocess.Popen; subst w1; simpl; rewrite Hexec; reflexivity
      | erewrite close_unbuffered by (done || exact Hfd1);
        f_equal; subst w1; destruct w; unfold after_open, set_fds, set_files; simpl in *;
        by rewrite delete_insert_id ]).
    unfold mbind, M_bind, subprocess.Popen, subprocess.wait. subst w1; simpl.
      rewrite Hexec; simpl.
      erewrite (run_child_redirected fd q [] (i_writable ino) _ []);
        [|simpl; by rewrite lookup_insert_eq..].
      simpl. unfold check_status, raise, mret, M_ret.
      clear Hfd1 Hp1.
      destruct (prog_status p =? 0)%Z; simpl; rewrite lookup_insert_eq; simpl;
        f_equal; destruct w; unfold after_child, after_open, set_stderr_sink,
          set_children, set_fds, set_files; simpl in *;
        by rewrite !insert_insert_eq, delete_insert_id.
Qed.

(** Whatever the body does, the file of a [with] statement is closed
    when the statement is left. *)
Lemma with_releases {A} (acquire : M nat) (body : nat -> M A) (w w1 : world) (f : nat) :
  acquire w = (Return f, w1) -> fds (exec (with_ acquire body) w) !! f = None.
Proof.
  intros Hacq. unfold exec, with_. rewrite Hacq.
  destruct (body f w1) as [r w2]. unfold close, modify.
  destruct (fds w2 !! f) as [o|] eqn:Hf; simpl; [|done].
  apply lookup_delete_eq.
Qed.
(** ** The claims *)

(** The statements below are about the outcome and the final world of a
    call; this brings both to the equation of the hook. *)
Ltac hook_equation :=
  unfold result, exec, open_errno in *; rewrite ?on_pre_build_eq.

(** What is read through the name of the destination once the open was
    granted and [data] was written. *)
Lemma contents_after_open (q : path) (ino : inode) (data : bytes) (w : world) :
  open_target usage_txt w = inr (q, ino) ->
  contents (after_open q ino data w) usage_txt = Some data.
Proof.
  intros Htarget. unfold contents, after_open. simpl.
  rewrite (open_target_namei _ _ _ _ Htarget). by rewrite lookup_insert_eq.
Qed.

Lemma contents_after_child (p : program) (w : world) (name : path) :
  contents (after_child p w) name = contents w name.
Proof. reflexivity. Qed.

(** The tool runs in a call, that is, the call adds a child to the
    children, exactly when the open is granted and the operating system
    runs the command. The statements about a tool that ran take these
    two conditions as their hypotheses. *)
Lemma child_spawned_iff {V : Type} (kwargs : gmap string V) (w : world) :
  children (exec (on_pre_build kwargs) w) = children w ++ [treefmt_help] <->
  open_errno usage_txt w = None /\ exists p, os_exec w treefmt_help = ExecRuns p.
Proof.
  assert (Hgrows : forall (l : list (list string)) x, l <> l ++ [x]).
  { intros l x Heq. apply (f_equal length) in Heq.
    rewrite length_app in Heq. simpl in Heq. lia. }
  hook_equation.
  destruct (open_target usage_txt w) as [e|[q ino]]; simpl.
  - split; [intros Heq; by apply Hgrows in Heq | by intros [? _]].
  - destruct (os_exec w treefmt_help) as [e|e|p]; simpl.
    + split; [intros Heq; by apply Hgrows in Heq | by intros [_ [? ?]]].
    + split; [intros Heq; by apply Hgrows in Heq | by intros [_ [? ?]]].
    + split; [eauto | done].
Qed.

(** C1. When the destination opens, the tool runs and exits with status
    zero, the hook returns [None] and the destination file holds exactly
    the bytes the tool wrote to its standard output, in the order it
    wrote them, with nothing before, after or changed. *)
Theorem on_pre_build_success {V : Type} (kwargs : gmap string V) (w : world) (p : program) :
  open_errno usage_txt w = None ->
  os_exec w treefmt_help = ExecRuns p ->
  prog_status p = 0%Z ->
  result (on_pre_build kwargs) w = Return tt /\
  contents (exec (on_pre_build kwargs) w) usage_txt = Some (stdout_bytes (prog_writes p)).
Proof.
  intros Hopen Hexec Hstatus. hook_equation.
  destruct (open_target usage_txt w) as [e|[q ino]] eqn:Htarget; [done|].
  rewrite Hexec. unfold check_status. rewrite Hstatus. simpl.
  by rewrite contents_after_child, (contents_after_open _ _ _ _ Htarget).
Qed.

Lemma on_pre_build_success_witness :
  result (on_pre_build host_kwargs) (docs_dir writable_snippet (installed help_ok)) = Return tt /\
  contents (exec (on_pre_build host_kwargs) (docs_dir writable_snippet (installed help_ok)))
    usage_txt = Some usage_line.
Proof.
  apply (on_pre_build_success host_kwargs (docs_dir writable_snippet (installed help_ok)) help_ok);
    vm_compute; reflexivity.
Defined.

(** C2. When the destination opens and the tool runs but exits with a
    status other than zero, the hook raises [CalledProcessError] with
    that status and command, and the bytes the tool wrote to its
    standard output before it exited are the contents of the
    destination file: nothing removes them. *)
Theorem on_pre_build_nonzero_exit {V : Type} (kwargs : gmap string V) (w : world) (p : program) :
  open_errno usage_txt w = None ->
  os_exec w treefmt_help = ExecRuns p ->
  prog_status p <> 0%Z ->
  result (on_pre_build kwargs) w = Raise (CalledProcessError (prog_status p) ["treefmt"; "--help"]) /\
  contents (exec (on_pre_build kwargs) w) usage_txt = Some (stdout_bytes (prog_writes p)).
Proof.
  intros Hopen Hexec Hstatus. hook_equation.
  destruct (open_target usage_txt w) as [e|[q ino]] eqn:Htarget; [done|].
  rewrite Hexec. unfold check_status.
  destruct (Z.eqb_spec (prog_status p) 0) as [|_]; [done|]. simpl.
  by rewrite contents_after_child, (contents_after_open _ _ _ _ Htarget).
Qed.

Lemma on_pre_build_nonzero_exit_witness :
  result (on_pre_build host_kwargs) (docs_dir ∅ (installed help_fails))
    = Raise (CalledProcessError 2 ["treefmt"; "--help"]) /\
  contents (exec (on_pre_build host_kwargs) (docs_dir ∅ (installed help_fails))) usage_txt
    = Some (String.list_byte_of_string "Usage: ").
Proof.
  apply (on_pre_build_nonzero_exit host_kwargs (docs_dir ∅ (installed help_fails)) help_fails);
    vm_compute; (reflexivity || discriminate).
Defined.

(** C3, as stated, fails: with the tool absent from the search path and
    a snippet of an earlier run that may not be written, the open is
    refused, the error is the [PermissionError] of the destination and
    not a lookup error of the tool, and the stale snippet is still
    there. *)
Lemma stale_snippet_survives :
  os_exec (docs_dir read_only_snippet not_installed) treefmt_help = ExecFails ENOENT /\
  result (on_pre_build host_kwargs) (docs_dir read_only_snippet not_installed)
    = Raise (PermissionError "snippets/usage.txt") /\
  contents (exec (on_pre_build host_kwargs) (docs_dir read_only_snippet not_installed)) usage_txt
    = Some (String.list_byte_of_string "Usage: treefmt-0.1").
Proof. vm_compute. auto. Qed.

(** C3, amended. When the tool cannot be resolved on the search path:
    if the destination opens, the hook raises the [FileNotFoundError] of
    the tool and the destination file is left empty, since the
    truncating open came first; if the open is refused, the hook raises
    the error of the open and the world, the destination with it, is as
    it was. *)
Theorem on_pre_build_tool_missing {V : Type} (kwargs : gmap string V) (w : world) :
  os_exec w treefmt_help = ExecFails ENOENT ->
  match open_errno usage_txt w with
  | None =>
      result (on_pre_build kwargs) w = Raise (FileNotFoundError "treefmt") /\
      contents (exec (on_pre_build kwargs) w) usage_txt = Some []
  | Some e =>
      result (on_pre_build kwargs) w = Raise (OSError e "snippets/usage.txt") /\
      exec (on_pre_build kwargs) w = w
  end.
Proof.
  intros Hexec. hook_equation.
  destruct (open_target usage_txt w) as [e|[q ino]] eqn:Htarget; [done|].
  rewrite Hexec. simpl. by rewrite (contents_after_open _ _ _ _ Htarget).
Qed.

Lemma on_pre_build_tool_missing_witness :
  result (on_pre_build host_kwargs) (docs_dir writable_snippet not_installed)
    = Raise (FileNotFoundError "treefmt") /\
  contents (exec (on_pre_build host_kwargs) (docs_dir writable_snippet not_installed)) usage_txt
    = Some [].
Proof.
  apply (on_pre_build_tool_missing host_kwargs (docs_dir writable_snippet not_installed)).
  reflexivity.
Defined.

(** C4. When the destination cannot be opened for writing, the hook
    raises the [OSError] of the refusal, naming the destination, and
    writes nothing anywhere: files, directories and both inherited
    streams are as they were. *)
Theorem on_pre_build_open_refused {V : Type} (kwargs : gmap string V) (w : world) (e : errno) :
  open_errno usage_txt w = Some e ->
  result (on_pre_build kwargs) w = Raise (OSError e "snippets/usage.txt") /\
  files (exec (on_pre_build kwargs) w) = files w /\
  dirs (exec (on_pre_build kwargs) w) = dirs w /\
  stdout_sink (exec (on_pre_build kwargs) w) = stdout_sink w /\
  stderr_sink (exec (on_pre_build kwargs) w) = stderr_sink w.
Proof.
  intros Hopen. hook_equation.
  destruct (open_target usage_txt w) as [e'|[q ino]]; by simplify_eq.
Qed.

Lemma on_pre_build_open_refused_witness :
  result (on_pre_build host_kwargs) (no_snippets_dir (installed help_ok))
    = Raise (FileNotFoundError "snippets/usage.txt") /\
  files (exec (on_pre_build host_kwargs) (no_snippets_dir (installed help_ok))) = ∅ /\
  dirs (exec (on_pre_build host_kwargs) (no_snippets_dir (installed help_ok))) = {[ [] := true ]} /\
  stdout_sink (exec (on_pre_build host_kwargs) (no_snippets_dir (installed help_ok))) = [] /\
  stderr_sink (exec (on_pre_build host_kwargs) (no_snippets_dir (installed help_ok))) = [].
Proof.
  apply (on_pre_build_open_refused host_kwargs (no_snippets_dir (installed help_ok)) ENOENT).
  vm_compute. reflexivity.
Defined.

(** C5. Two runs in a row, with a tool that writes the same bytes to
    its standard output both times (its standard error and its exit
    status may differ), leave the files as one run leaves them: the
    second run truncates what the first wrote before the tool writes
    again. When the destination opens, its contents after the second
    run are the tool's standard output, once. *)
Theorem on_pre_build_rerun {V1 V2 : Type} (kwargs1 : gmap string V1) (kwargs2 : gmap string V2)
    (w : world) (x2 : list string -> exec_result) (p1 p2 : program) :
  os_exec w treefmt_help = ExecRuns p1 ->
  x2 treefmt_help = ExecRuns p2 ->
  stdout_bytes (prog_writes p1) = stdout_bytes (prog_writes p2) ->
  let w1 := exec (on_pre_build kwargs1) w in
  let w2 := exec (on_pre_build kwargs2) (set_os_exec x2 w1) in
  files w2 = files w1 /\
  match open_errno usage_txt w with
  | None => contents w2 usage_txt = Some (stdout_bytes (prog_writes p1))
  | Some _ => files w2 = files w
  end.
Proof.
  intros Hexec1 Hexec2 Hout. simpl. unfold exec, open_errno.
  rewrite (on_pre_build_eq kwargs1 w), Hexec1.
  destruct (open_target usage_txt w) as [e|[q ino]] eqn:Htarget; simpl.
  - rewrite on_pre_build_eq.
    rewrite (open_target_ext usage_txt (set_os_exec x2 w) w), Htarget; done.
  - rewrite on_pre_build_eq.
    rewrite (open_target_rewritten usage_txt q w _ ino
               (stdout_bytes (prog_writes p1)) Htarget) by done.
    pose proof (open_target_namei _ _ _ _ Htarget) as Hq.
    unfold contents.
    destruct (i_writable ino) eqn:Hwr; simpl; rewrite ?Hexec2, <- ?Hout; simpl;
      by rewrite Hq, ?Hwr, ?insert_insert_eq, lookup_insert_eq.
Qed.

Lemma on_pre_build_rerun_witness :
  let w1 := exec (on_pre_build host_kwargs) (docs_dir writable_snippet (installed help_ok)) in
  let w2 := exec (on_pre_build host_kwargs) (set_os_exec (installed help_noisy) w1) in
  files w2 = files w1 /\ contents w2 usage_txt = Some usage_line.
Proof.
  apply (on_pre_build_rerun host_kwargs host_kwargs
           (docs_dir writable_snippet (installed help_ok)) (installed help_noisy)
           help_ok help_noisy); vm_compute; reflexivity.
Defined.

(** C6. Once the destination is open, the descriptor the open returned
    is closed by the time the hook returns or raises, whatever happens
    in between (the tool runs and succeeds, the launch fails, the tool
    exits with a failure): the descriptor table is the one the hook
    started with. *)
Theorem on_pre_build_closes {V : Type} (kwargs : gmap string V) (w w1 : world) (f : nat) :
  os_open usage_txt Mode_w w = inr (f, w1) ->
  is_Some (fds w1 !! f) /\
  fds (exec (on_pre_build kwargs) w) !! f = None /\
  fds (exec (on_pre_build kwargs) w) = fds w.
Proof.
  intros Hopen. split; [|split].
  - unfold os_open in Hopen.
    destruct (open_target usage_txt w) as [|[q ino]]; simplify_eq.
    simpl. rewrite lookup_insert_eq. by eexists.
  - unfold on_pre_build. rewrite Path_usage_txt.
    apply (with_releases _ _ w w1). unfold Path_open. by rewrite Hopen.
  - unfold exec. rewrite on_pre_build_eq.
    destruct (open_target usage_txt w) as [|[q ino]]; [done|].
    by destruct (os_exec w treefmt_help).
Qed.

Lemma on_pre_build_closes_witness :
  is_Some (fds (set_fds {[ 0 := OpenFile usage_txt 0 false [] ]}
                  (docs_dir {[ usage_txt := Inode [] true ]} (installed help_fails))) !! 0) /\
  fds (exec (on_pre_build host_kwargs) (docs_dir ∅ (installed help_fails))) !! 0 = None /\
  fds (exec (on_pre_build host_kwargs) (docs_dir ∅ (installed help_fails))) = ∅.
Proof.
  apply (on_pre_build_closes host_kwargs (docs_dir ∅ (installed help_fails))
           (set_fds {[ 0 := OpenFile usage_txt 0 false [] ]}
              (docs_dir {[ usage_txt := Inode [] true ]} (installed help_fails))) 0).
  vm_compute. reflexivity.
Defined.

(** C7. The keyword arguments of the host play no part: two calls that
    differ in them only, whatever their names, values and kinds, give
    the same outcome and the same final world. *)
Theorem on_pre_build_ignores_kwargs {V1 V2 : Type}
    (kwargs1 : gmap string V1) (kwargs2 : gmap string V2) (w : world) :
  on_pre_build kwargs1 w = on_pre_build kwargs2 w.
Proof. reflexivity. Qed.

(** C8, as stated, fails: without the [snippets/] directory the hook
    raises at the open, although the tool is installed and would run:
    no child is spawned and no file is created or written. *)
Lemma no_directory_no_child :
  os_exec (no_snippets_dir (installed help_ok)) treefmt_help = ExecRuns help_ok /\
  result (on_pre_build host_kwargs) (no_snippets_dir (installed help_ok))
    = Raise (FileNotFoundError "snippets/usage.txt") /\
  children (exec (on_pre_build host_kwargs) (no_snippets_dir (installed help_ok))) = [] /\
  files (exec (on_pre_build host_kwargs) (no_snippets_dir (installed help_ok))) = ∅.
Proof. vm_compute. auto. Qed.

(** C8, amended. Every call spawns at most one child and writes at most
    one file. The path of the source is the name [usage.txt] in the
    directory [snippets] under the working directory; the one file the
    hook can create or write is the file this name leads to, which is
    the file of that name or, when a link is in the way, the file at
    the end of the link. The directories and every other file are as
    they were; when the name leads nowhere no file has changed. The
    children spawned are: one, running [treefmt] with the argument
    [--help], when the destination opens and the launch succeeds; none
    otherwise. A file can be read through the name afterwards when the
    open is granted, and no file at all has changed when it is
    refused. *)
Theorem on_pre_build_frame {V : Type} (kwargs : gmap string V) (w : world) :
  Pathlib.Path "./snippets/usage.txt" = ["snippets"; "usage.txt"] /\
  dirs (exec (on_pre_build kwargs) w) = dirs w /\
  match namei w ["snippets"; "usage.txt"] with
  | inr q => delete q (files (exec (on_pre_build kwargs) w)) = delete q (files w)
  | inl _ => files (exec (on_pre_build kwargs) w) = files w
  end /\
  children (exec (on_pre_build kwargs) w) =
    children w ++
      match open_errno ["snippets"; "usage.txt"] w, os_exec w ["treefmt"; "--help"] with
      | None, ExecRuns _ => [["treefmt"; "--help"]]
      | _, _ => []
      end /\
  match open_errno ["snippets"; "usage.txt"] w with
  | None => is_Some (contents (exec (on_pre_build kwargs) w) ["snippets"; "usage.txt"])
  | Some _ => files (exec (on_pre_build kwargs) w) = files w
  end.
Proof.
  split; [reflexivity|].
  unfold exec, open_errno. rewrite on_pre_build_eq.
  change ["snippets"; "usage.txt"] with usage_txt.
  change ["treefmt"; "--help"] with treefmt_help.
  destruct (open_target usage_txt w) as [e|[q ino]] eqn:Htarget; simpl.
  - rewrite app_nil_r. by destruct (namei w usage_txt).
  - rewrite (open_target_namei _ _ _ _ Htarget).
    destruct (os_exec w treefmt_help) as [e|e|p]; simpl;
      rewrite delete_insert_eq, ?app_nil_r, ?contents_after_child,
        (contents_after_open _ _ _ _ Htarget); eauto.
Qed.

(** The hook in a directory where [snippets/usage.txt] is a link: the
    file at the end of the link is rewritten, and there is still no
    file of the name itself. *)
Example link_is_followed :
  files (exec (on_pre_build host_kwargs)
           (linked_docs_dir {[ ["other.txt"] := Inode stale_line true ]} (installed help_ok)))
    = {[ ["other.txt"] := Inode usage_line true ]} /\
  contents (exec (on_pre_build host_kwargs)
              (linked_docs_dir {[ ["other.txt"] := Inode stale_line true ]} (installed help_ok)))
    usage_txt = Some usage_line.
Proof. vm_compute. auto. Qed.

(** C9. When the open of the destination is refused, the hook raises
    the error of the open and has spawned no child: the list of
    children is the one it started with. *)
Theorem no_child_when_open_refused {V : Type} (kwargs : gmap string V)
    (w : world) (e : errno) :
  open_errno usage_txt w = Some e ->
  result (on_pre_build kwargs) w = Raise (OSError e "snippets/usage.txt") /\
  children (exec (on_pre_build kwargs) w) = children w.
Proof.
  intros Hopen. hook_equation.
  destruct (open_target usage_txt w) as [e'|[q ino]]; by simplify_eq.
Qed.

Lemma no_child_when_open_refused_witness :
  result (on_pre_build host_kwargs) (docs_dir read_only_snippet (installed help_ok))
    = Raise (PermissionError "snippets/usage.txt") /\
  children (exec (on_pre_build host_kwargs) (docs_dir read_only_snippet (installed help_ok))) = [].
Proof.
  apply (no_child_when_open_refused host_kwargs
           (docs_dir read_only_snippet (installed help_ok)) EACCES).
  vm_compute. reflexivity.
Defined.

(** C10. Only the standard output of the tool reaches the destination
    file. Take two tools that write the same bytes to standard output
    and anything at all to standard error, at any point of their runs:
    the files end up the same under both. When the destination opens it
    holds the standard-output bytes, and what the tool wrote to standard
    error is at the end of the inherited stream instead; when the open
    is refused the tool does not run and that stream is as it was. *)
Theorem on_pre_build_stderr_apart {V : Type} (kwargs : gmap string V) (w : world)
    (x2 : list string -> exec_result) (p1 p2 : program) :
  os_exec w treefmt_help = ExecRuns p1 ->
  x2 treefmt_help = ExecRuns p2 ->
  stdout_bytes (prog_writes p1) = stdout_bytes (prog_writes p2) ->
  files (exec (on_pre_build kwargs) w) = files (exec (on_pre_build kwargs) (set_os_exec x2 w)) /\
  match open_errno usage_txt w with
  | None =>
      contents (exec (on_pre_build kwargs) w) usage_txt = Some (stdout_bytes (prog_writes p1)) /\
      stderr_sink (exec (on_pre_build kwargs) w)
        = stderr_sink w ++ stderr_bytes (prog_writes p1) /\
      stderr_sink (exec (on_pre_build kwargs) (set_os_exec x2 w))
        = stderr_sink w ++ stderr_bytes (prog_writes p2)
  | Some _ =>
      stderr_sink (exec (on_pre_build kwargs) w) = stderr_sink w /\
      stderr_sink (exec (on_pre_build kwargs) (set_os_exec x2 w)) = stderr_sink w
  end.
Proof.
  intros Hexec1 Hexec2 Hout. unfold exec, open_errno.
  rewrite !on_pre_build_eq.
  rewrite (open_target_ext usage_txt (set_os_exec x2 w) w) by done.
  destruct (open_target usage_txt w) as [e|[q ino]] eqn:Htarget; [done|].
  simpl. rewrite Hexec1, Hexec2, Hout. simpl.
  by rewrite contents_after_child, (contents_after_open _ _ _ _ Htarget).
Qed.

Lemma on_pre_build_stderr_apart_witness :
  files (exec (on_pre_build host_kwargs) (docs_dir ∅ (installed help_ok)))
    = files (exec (on_pre_build host_kwargs)
               (set_os_exec (installed help_noisy) (docs_dir ∅ (installed help_ok)))) /\
  contents (exec (on_pre_build host_kwargs) (docs_dir ∅ (installed help_ok))) usage_txt
    = Some usage_line /\
  stderr_sink (exec (on_pre_build host_kwargs) (docs_dir ∅ (installed help_ok))) = [] /\
  stderr_sink (exec (on_pre_build host_kwargs)
                 (set_os_exec (installed help_noisy) (docs_dir ∅ (installed help_ok))))
    = String.list_byte_of_string "warning: no config".
Proof.
  generalize (on_pre_build_stderr_apart host_kwargs (docs_dir ∅ (installed help_ok))
                (installed help_noisy) help_ok help_noisy).
  vm_compute. intros Hthm. apply Hthm; reflexivity.
Defined.

(** ** Further properties of the hook *)

(** What a call leaves fixed: the walk from names to files, the
    directories, the mask and the answer of the operating system to an
    exec request. *)
Lemma on_pre_build_keeps {V : Type} (kwargs : gmap string V) (w : world) :
  namei (exec (on_pre_build kwargs) w) = namei w /\
  dirs (exec (on_pre_build kwargs) w) = dirs w /\
  created_writable (exec (on_pre_build kwargs) w) = created_writable w /\
  os_exec (exec (on_pre_build kwargs) w) = os_exec w.
Proof.
  hook_equation. destruct (open_target usage_txt w) as [|[q ino]]; [done|].
  by destruct (os_exec w treefmt_help).
Qed.

(** The files after a call whose open is granted. *)
Lemma on_pre_build_files {V : Type} (kwargs : gmap string V) (w : world)
    (q : path) (ino : inode) :
  open_target usage_txt w = inr (q, ino) ->
  files (exec (on_pre_build kwargs) w)
    = <[q := Inode (written w) (i_writable ino)]> (files w).
Proof.
  intros Htarget. unfold written. hook_equation. rewrite Htarget.
  by destruct (os_exec w treefmt_help).
Qed.

Lemma on_pre_build_children {V : Type} (kwargs : gmap string V) (w : world) :
  children (exec (on_pre_build kwargs) w) = children w ++ spawned w.
Proof.
  unfold spawned. hook_equation.
  destruct (open_target usage_txt w) as [|[q ino]]; simpl; [by rewrite app_nil_r|].
  destruct (os_exec w treefmt_help); simpl; by rewrite ?app_nil_r.
Qed.

(** A second call in the world the first one left changes no file:
    either it is refused, or it writes again what is there. *)
Lemma on_pre_build_files_again {V : Type} (kwargs : gmap string V) (w : world) :
  files (exec (on_pre_build kwargs) (exec (on_pre_build kwargs) w))
    = files (exec (on_pre_build kwargs) w).
Proof.
  destruct (on_pre_build_keeps kwargs w) as (Hn & Hd & Hc & Hx).
  destruct (open_target usage_txt w) as [e|[q ino]] eqn:Htarget.
  - assert (Hsame : exec (on_pre_build kwargs) w = w)
      by (hook_equation; by rewrite Htarget).
    by rewrite !Hsame.
  - pose proof (on_pre_build_files kwargs w q ino Htarget) as Hf.
    pose proof (open_target_rewritten usage_txt q w _ ino (written w) Htarget Hn Hd Hf)
      as Hagain.
    destruct (i_writable ino) eqn:Hwr.
    + rewrite (on_pre_build_files kwargs _ q _ Hagain). simpl.
      unfold written at 1. rewrite Hx. fold (written w).
      by rewrite Hf, insert_insert_eq.
    + unfold exec at 1. rewrite on_pre_build_eq. by rewrite Hagain.
Qed.

(** From the second call on, every call meets the same answer to its
    open and to its launch as the call before. *)
Lemma on_pre_build_settles {V : Type} (kwargs : gmap string V) (w : world) :
  spawned (exec (on_pre_build kwargs) (exec (on_pre_build kwargs) w))
    = spawned (exec (on_pre_build kwargs) w).
Proof.
  destruct (on_pre_build_keeps kwargs (exec (on_pre_build kwargs) w)) as (Hn & Hd & Hc & Hx).
  unfold spawned, open_errno. rewrite Hx.
  by rewrite (open_target_ext usage_txt _ (exec (on_pre_build kwargs) w) Hn Hd
                (on_pre_build_files_again kwargs w) Hc).
Qed.

(** X1. When the destination opens and the launch fails, the hook
    raises the error of the failure: an [OSError] without a file name
    when no process could be created, an [OSError] with the tool as its
    file name when the [exec] failed (the tool is missing, may not be
    executed, ...). In both cases the destination is left as an empty
    file, no child has been added and nothing has reached the inherited
    streams. *)
Theorem on_pre_build_launch_fails {V : Type} (kwargs : gmap string V) (w : world)
    (e : errno) (ex : exn) :
  open_errno usage_txt w = None ->
  (os_exec w treefmt_help = SpawnFails e /\ ex = OSError_unnamed e) \/
  (os_exec w treefmt_help = ExecFails e /\ ex = OSError e "treefmt") ->
  result (on_pre_build kwargs) w = Raise ex /\
  contents (exec (on_pre_build kwargs) w) usage_txt = Some [] /\
  children (exec (on_pre_build kwargs) w) = children w /\
  stdout_sink (exec (on_pre_build kwargs) w) = stdout_sink w /\
  stderr_sink (exec (on_pre_build kwargs) w) = stderr_sink w.
Proof.
  intros Hopen Hfail. hook_equation.
  destruct (open_target usage_txt w) as [e'|[q ino]] eqn:Htarget; [done|].
  destruct Hfail as [[Hexec ->]|[Hexec ->]]; rewrite Hexec; simpl;
    by rewrite (contents_after_open _ _ _ _ Htarget).
Qed.

Lemma on_pre_build_launch_fails_witness :
  result (on_pre_build host_kwargs) (docs_dir writable_snippet no_more_processes)
    = Raise (OSError_unnamed EAGAIN) /\
  contents (exec (on_pre_build host_kwargs) (docs_dir writable_snippet no_more_processes)) usage_txt
    = Some [] /\
  children (exec (on_pre_build host_kwargs) (docs_dir writable_snippet no_more_processes)) = [] /\
  stdout_sink (exec (on_pre_build host_kwargs) (docs_dir writable_snippet no_more_processes)) = [] /\
  stderr_sink (exec (on_pre_build host_kwargs) (docs_dir writable_snippet no_more_processes)) = [].
Proof.
  apply (on_pre_build_launch_fails host_kwargs (docs_dir writable_snippet no_more_processes)
           EAGAIN (OSError_unnamed EAGAIN)); vm_compute; auto.
Defined.

(** X2. Nothing the tool prints reaches the standard output of the
    host: on every path of the hook, whatever the tool writes and
    however it ends, the inherited standard output is as it was. *)
Theorem on_pre_build_stdout_silent {V : Type} (kwargs : gmap string V) (w : world) :
  stdout_sink (exec (on_pre_build kwargs) w) = stdout_sink w.
Proof.
  hook_equation. destruct (open_target usage_txt w) as [|[q ino]]; [done|].
  by destruct (os_exec w treefmt_help).
Qed.

(** X3. The hook returns, rather than raises, exactly when the
    destination opens, the tool is launched and it exits with status
    zero; and what it returns then is [None]. *)
Theorem on_pre_build_returns_iff {V : Type} (kwargs : gmap string V) (w : world) :
  (exists v, result (on_pre_build kwargs) w = Return v) <->
  open_errno usage_txt w = None /\
  exists p, os_exec w treefmt_help = ExecRuns p /\ prog_status p = 0%Z.
Proof.
  hook_equation. destruct (open_target usage_txt w) as [e|[q ino]]; simpl.
  - split; [by intros [v ?] | by intros [? _]].
  - destruct (os_exec w treefmt_help) as [e|e|p]; simpl.
    + split; [by intros [v ?] | by intros [_ (p & ? & _)]].
    + split; [by intros [v ?] | by intros [_ (p & ? & _)]].
    + unfold check_status. destruct (Z.eqb_spec (prog_status p) 0) as [Hz|Hnz].
      * split; [eauto | by exists tt].
      * split; [by intros [v ?] | intros [_ (p' & Hp' & Hz)]; by simplify_eq].
Qed.

(** X4. An exception the hook raises for a failure of its open or of
    its launch tells which failure it was: an [OSError] that names the
    destination, when the open is refused, with the [errno] of the
    refusal; an [OSError] without a file name, when the open is granted
    and no process could be created; an [OSError] that names the tool,
    when the open is granted and the [exec] fails, with the [errno] of
    the failure; a [CalledProcessError] with the command and a status
    that is not zero, when the tool ran and exited with that status. *)
Theorem on_pre_build_raises {V : Type} (kwargs : gmap string V) (w : world) (ex : exn) :
  result (on_pre_build kwargs) w = Raise ex ->
  (exists e, open_errno usage_txt w = Some e /\ ex = OSError e "snippets/usage.txt") \/
  (open_errno usage_txt w = None /\
   exists e, os_exec w treefmt_help = SpawnFails e /\ ex = OSError_unnamed e) \/
  (open_errno usage_txt w = None /\
   exists e, os_exec w treefmt_help = ExecFails e /\ ex = OSError e "treefmt") \/
  (open_errno usage_txt w = None /\
   exists p, os_exec w treefmt_help = ExecRuns p /\ prog_status p <> 0%Z /\
     ex = CalledProcessError (prog_status p) ["treefmt"; "--help"]).
Proof.
  hook_equation. destruct (open_target usage_txt w) as [e|[q ino]]; simpl.
  - intros; simplify_eq. left. eauto.
  - destruct (os_exec w treefmt_help) as [e|e|p]; simpl.
    + intros; simplify_eq. right; left. eauto.
    + intros; simplify_eq. right; right; left. eauto.
    + unfold check_status. destruct (Z.eqb_spec (prog_status p) 0) as [Hz|Hnz]; [done|].
      intros; simplify_eq. right; right; right. eauto.
Qed.

Lemma on_pre_build_raises_witness :
  (exists e, open_errno usage_txt (no_snippets_dir not_installed) = Some e /\
     FileNotFoundError "snippets/usage.txt" = OSError e "snippets/usage.txt") \/
  (open_errno usage_txt (no_snippets_dir not_installed) = None /\
   exists e, os_exec (no_snippets_dir not_installed) treefmt_help = SpawnFails e /\
     FileNotFoundError "snippets/usage.txt" = OSError_unnamed e) \/
  (open_errno usage_txt (no_snippets_dir not_installed) = None /\
   exists e, os_exec (no_snippets_dir not_installed) treefmt_help = ExecFails e /\
     FileNotFoundError "snippets/usage.txt" = OSError e "treefmt") \/
  (open_errno usage_txt (no_snippets_dir not_installed) = None /\
   exists p, os_exec (no_snippets_dir not_installed) treefmt_help = ExecRuns p /\
     prog_status p <> 0%Z /\
     FileNotFoundError "snippets/usage.txt"
       = CalledProcessError (prog_status p) ["treefmt"; "--help"]).
Proof.
  apply (on_pre_build_raises host_kwargs (no_snippets_dir not_installed)
           (FileNotFoundError "snippets/usage.txt")).
  vm_compute. reflexivity.
Defined.

(** X5. However often the host calls the hook in a row, at least once,
    with the tool, the links and the permissions left alone, the files
    are those one call leaves. The first call spawns what the open and
    the launch it meets allow, and every later call spawns what the
    second does: the first call can change the answer to the open only
    by creating the destination under a mask that makes it read-only,
    after which every call is refused. *)
Theorem rebuilds_as_one {V : Type} (kwargs : gmap string V) (n : nat) (w : world) :
  files (rebuilds kwargs (S n) w) = files (exec (on_pre_build kwargs) w) /\
  children (rebuilds kwargs (S n) w) =
    children w ++ spawned w ++ concat (replicate n (spawned (exec (on_pre_build kwargs) w))).
Proof.
  split.
  - revert w. induction n as [|n IH]; intros w; [done|].
    change (rebuilds kwargs (S (S n)) w)
      with (rebuilds kwargs (S n) (exec (on_pre_build kwargs) w)).
    rewrite IH. apply on_pre_build_files_again.
  - change (rebuilds kwargs (S n) w) with (rebuilds kwargs n (exec (on_pre_build kwargs) w)).
    rewrite app_assoc, <- (on_pre_build_children kwargs).
    revert w. induction n as [|n IH]; intros w; simpl.
    + by rewrite app_nil_r.
    + by rewrite IH, on_pre_build_settles, on_pre_build_children, <- app_assoc.
Qed.

(** Three calls in a new directory: under the usual mask each spawns a
    child; under a mask that makes the created file read-only the first
    does and the others are refused. The file is the same. *)
Example three_rebuilds :
  children (rebuilds host_kwargs 3 (docs_dir ∅ (installed help_ok)))
    = [treefmt_help; treefmt_help; treefmt_help] /\
  children (rebuilds host_kwargs 3 (masked_docs_dir ∅ (installed help_ok)))
    = [treefmt_help] /\
  contents (rebuilds host_kwargs 3 (masked_docs_dir ∅ (installed help_ok))) usage_txt
    = Some usage_line.
Proof. vm_compute. auto. Qed.
